(** * Shallow embedding of the generator [Tree] API of @theo/cli

    Source: [src/docs/adr/ADR-003-git-transparency.md] (the [Tree] class of
    "ADR-005: Virtual Filesystem (Tree API)", and the two [runGenerator]
    functions) and [src/docs/adr/ADR-004-idempotent-generators.md]
    ([generate] / [checkInstalled]).

    Data as the code has it:
    - [changes : Map<string, Change>] is a JavaScript [Map]: iteration follows
      insertion order, and [set] on a present key keeps its position.  It is
      modelled as an association list with exactly that [set].
    - the real filesystem is a [gmap string string] from full paths to file
      contents, together with the trace of storage calls issued so far.
    - [join] is POSIX [path.join] for an absolute [baseDir]: segments are
      concatenated and normalised ([.] dropped, [..] pops one segment). *)

From Stdlib Require Import String Ascii List Bool.
From stdpp Require Import base gmap strings list.

Import ListNotations.
Open Scope list_scope.

(* ------------------------------------------------------------------ *)
(** ** Paths *)

Module Path.

(** Split a string on ['/']. *)
Fixpoint split_aux (s : string) (cur : string) : list string :=
  match s with
  | EmptyString => [cur]
  | String c r =>
      if Ascii.eqb c "/"%char then cur :: split_aux r EmptyString
      else split_aux r (String.append cur (String c EmptyString))
  end.

(** The non-empty segments of a path. *)
Definition segments (s : string) : list string :=
  List.filter (fun seg => negb (String.eqb seg EmptyString)) (split_aux s EmptyString).

(** Normalisation as [path.normalize] does it on an absolute path:
    [.] is dropped, [..] removes the previous segment (and stays at the root). *)
Fixpoint normalize_rev (acc : list string) (segs : list string) : list string :=
  match segs with
  | [] => acc
  | seg :: r =>
      if String.eqb seg "." then normalize_rev acc r
      else if String.eqb seg ".." then
        normalize_rev (match acc with [] => [] | _ :: acc' => acc' end) r
      else normalize_rev (seg :: acc) r
  end.

Definition normalize (segs : list string) : list string :=
  rev (normalize_rev [] segs).

Fixpoint concat_slash (segs : list string) : string :=
  match segs with
  | [] => EmptyString
  | seg :: r => String.append "/" (String.append seg (concat_slash r))
  end.

Definition render (segs : list string) : string :=
  match segs with
  | [] => "/"
  | _ => concat_slash segs
  end.

(** [join(baseDir, path)] for an absolute [baseDir]. *)
Definition join (base p : string) : string :=
  render (normalize (segments base ++ segments p)).

(** [dirname(fullPath)]. *)
Definition dirname (full : string) : string :=
  render (removelast (normalize (segments full))).

(** [full] lies under [base]: the normalised segments of [base] are a
    prefix of those of [full]. *)
Definition under (base full : string) : bool :=
  let b := normalize (segments base) in
  let f := normalize (segments full) in
  bool_decide (b = firstn (length b) f).

End Path.

(* ------------------------------------------------------------------ *)
(** ** The [Tree] class *)

Module Tree.

(** [interface Change { type: 'create' | 'modify' | 'delete'; path; content? }] *)
Inductive ChangeType := create | modify_ | delete_.

Record Change := mkChange {
  type : ChangeType;
  path : string;
  content : option string
}.

(** Errors thrown by the code: [new Error(`File ${path} does not exist`)]
    from [modify], and the storage errors of [writeFileSync] / [unlinkSync]
    (e.g. [EACCES]).  [ETypeError] is what [writeFileSync(p, undefined)]
    raises; the API never stages a create/modify record without content. *)
Inductive Err :=
| ENotExist (p : string)
| EAccess (full : string)
| ETypeError (full : string).

Inductive result (A : Type) :=
| Ok (a : A)
| Throw (e : Err).
Arguments Ok {A} a.
Arguments Throw {A} e.

(** A JavaScript [Map<string, Change>]: insertion ordered. *)
Definition JsMap := list (string * Change).

Fixpoint map_get (m : JsMap) (k : string) : option Change :=
  match m with
  | [] => None
  | (k', v) :: r => if String.eqb k k' then Some v else map_get r k
  end.

(** [Map.prototype.set]: an existing key keeps its position, a new key is
    appended at the end. *)
Fixpoint map_set (m : JsMap) (k : string) (v : Change) : JsMap :=
  match m with
  | [] => [(k, v)]
  | (k', v') :: r =>
      if String.eqb k k' then (k', v) :: r else (k', v') :: map_set r k v
  end.

Definition map_has (m : JsMap) (k : string) : bool :=
  match map_get m k with Some _ => true | None => false end.

Definition map_values (m : JsMap) : list Change := map snd m.

(** Real storage: file contents by full path, and the trace of the
    mutating storage calls issued so far. *)
Inductive Effect :=
| EMkdir (dir : string)
| EWrite (full data : string)
| EUnlink (full : string).

Record Storage := mkStorage {
  files : gmap string string;
  trace : list Effect
}.

Definition existsSync (s : Storage) (full : string) : bool :=
  match files s !! full with Some _ => true | None => false end.

Definition readFileSync (s : Storage) (full : string) : option string :=
  files s !! full.

Record T := mkTree {
  changes : JsMap;
  baseDir : string
}.

Definition new_Tree (base : string) : T := mkTree [] base.

Definition set_changes (t : T) (m : JsMap) : T := mkTree m (baseDir t).

(** [read(path)] *)
Definition read (s : Storage) (t : T) (p : string) : option string :=
  match map_get (changes t) p with
  | Some change =>
      match type change with
      | delete_ => None
      | _ => content change
      end
  | None =>
      let fullPath := Path.join (baseDir t) p in
      if negb (existsSync s fullPath) then None
      else readFileSync s fullPath
  end.

(** [write(path, content)] *)
Definition write (t : T) (p c : string) : T :=
  set_changes t (map_set (changes t) p (mkChange create p (Some c))).

(** JavaScript truthiness of [string | null]: [null] and [""] are falsy. *)
Definition falsy (v : option string) : bool :=
  match v with
  | None => true
  | Some str => String.eqb str EmptyString
  end.

(** [modify(path, modifier)] *)
Definition modify (s : Storage) (t : T) (p : string) (modifier : string -> string)
  : result T :=
  let current := read s t p in
  match current with
  | Some cur =>
      if falsy current then Throw (ENotExist p)
      else Ok (set_changes t (map_set (changes t) p (mkChange modify_ p (Some (modifier cur)))))
  | None => Throw (ENotExist p)
  end.

(** [delete(path)] *)
Definition delete (t : T) (p : string) : T :=
  set_changes t (map_set (changes t) p (mkChange delete_ p None)).

(** [exists(path)] *)
Definition exists_ (s : Storage) (t : T) (p : string) : bool :=
  match map_get (changes t) p with
  | Some change =>
      match type change with delete_ => false | _ => true end
  | None => existsSync s (Path.join (baseDir t) p)
  end.

(** [getChanges()] = [Array.from(this.changes.values())] *)
Definition getChanges (t : T) : list Change := map_values (changes t).

(** [rollback()] *)
Definition rollback (t : T) : T := set_changes t [].

Section Commit.

(** The storage refuses writes and unlinks at these full paths
    (permission errors). *)
Variable denied : string -> bool.

Definition mkdirSync (s : Storage) (dir : string) : Storage :=
  mkStorage (files s) (trace s ++ [EMkdir dir]).

Definition writeFileSync (s : Storage) (full data : string) : Storage * option Err :=
  if denied full then (s, Some (EAccess full))
  else (mkStorage (<[full := data]> (files s)) (trace s ++ [EWrite full data]), None).

Definition unlinkSync (s : Storage) (full : string) : Storage * option Err :=
  if denied full then (s, Some (EAccess full))
  else (mkStorage (base.delete full (files s)) (trace s ++ [EUnlink full]), None).

(** One iteration of the [for ... of this.changes.values()] loop: the
    storage after the calls it made, and the exception it raised if any. *)
Definition apply_change (base : string) (s : Storage) (change : Change)
  : Storage * option Err :=
  let fullPath := Path.join base (path change) in
  match type change with
  | create | modify_ =>
      let s1 := mkdirSync s (Path.dirname fullPath) in
      match content change with
      | Some data => writeFileSync s1 fullPath data
      | None => (s1, Some (ETypeError fullPath))
      end
  | delete_ =>
      if existsSync s fullPath then unlinkSync s fullPath else (s, None)
  end.

(** The loop: an exception leaves the loop, with the storage as far as it
    got. *)
Fixpoint apply_all (base : string) (cs : list Change) (s : Storage) : Storage * option Err :=
  match cs with
  | [] => (s, None)
  | change :: rest =>
      match apply_change base s change with
      | (s1, None) => apply_all base rest s1
      | (s1, Some e) => (s1, Some e)
      end
  end.

(** [commit()]: apply every change, then [this.changes.clear()].  When the
    loop throws, the promise rejects and the changes are not cleared. *)
Definition commit (s : Storage) (t : T) : Storage * result T :=
  match apply_all (baseDir t) (getChanges t) s with
  | (s', None) => (s', Ok (set_changes t []))
  | (s', Some e) => (s', Throw e)
  end.

(** A tree operation as a generator issues it. *)
Inductive Op :=
| OWrite (p c : string)
| OModify (p : string) (modifier : string -> string)
| ODelete (p : string)
| ORead (p : string)
| OExists (p : string)
| ORollback
| OCommit.

Definition is_commit (o : Op) : bool :=
  match o with OCommit => true | _ => false end.

Definition step (s : Storage) (t : T) (o : Op) : Storage * result T :=
  match o with
  | OWrite p c => (s, Ok (write t p c))
  | OModify p f => (s, modify s t p f)
  | ODelete p => (s, Ok (delete t p))
  | ORead _ | OExists _ => (s, Ok t)
  | ORollback => (s, Ok (rollback t))
  | OCommit => commit s t
  end.

(** A sequence of calls on one tree; the first exception ends it. *)
Fixpoint exec (s : Storage) (t : T) (ops : list Op) : Storage * result T :=
  match ops with
  | [] => (s, Ok t)
  | o :: rest =>
      match step s t o with
      | (s1, Ok t1) => exec s1 t1 rest
      | (s1, Throw e) => (s1, Throw e)
      end
  end.

End Commit.

End Tree.

(* ------------------------------------------------------------------ *)
(** ** Generators and [runGenerator] *)

Module Pipeline.
Import Tree.

Record Options := mkOptions {
  dryRun : bool;
  force : bool
}.

(** How [generate] returned: through the early "Skipping" return of
    ADR-004, or after staging its files. *)
Inductive GenOutcome := GenSkipped | GenDone.

(** [generate(tree, options)]: it may read the storage and may throw. *)
Definition Generator := Storage -> Options -> T -> Storage * result (GenOutcome * T).

Section Run.

Variable denied : string -> bool.

(** A generator that issues a fixed sequence of tree calls. *)
Definition ops_generator (ops : list Op) : Generator :=
  fun s _ t =>
    match exec denied s t ops with
    | (s', Ok t') => (s', Ok (GenDone, t'))
    | (s', Throw e) => (s', Throw e)
    end.

(** ADR-004 [checkInstalled]: [markerFiles.every(file => tree.exists(file))]. *)
Definition checkInstalled (markerFiles : list string) (s : Storage) (t : T) : bool :=
  forallb (fun file => exists_ s t file) markerFiles.

(** ADR-004 [generate]: the installation check first, then the body. *)
Definition idem_generator (markerFiles : list string) (body : list Op) : Generator :=
  fun s options t =>
    let alreadyInstalled := checkInstalled markerFiles s t in
    if alreadyInstalled && negb (force options) then (s, Ok (GenSkipped, t))
    else ops_generator body s options t.

Inductive RunResult :=
| RRejected (e : Err)              (* the returned promise rejects *)
| RPreview (cs : list Change)      (* dry run: the listed changes *)
| RApplied (g : GenOutcome).       (* "Changes applied!" *)

(** [runGenerator(name, options)] of ADR-005 (Dry-Run Support). *)
Definition runGenerator (generator : Generator) (base : string) (options : Options)
  (s : Storage) : Storage * RunResult :=
  let tree := new_Tree base in
  match generator s options tree with
  | (s1, Throw e) => (s1, RRejected e)
  | (s1, Ok (g, tree1)) =>
      if dryRun options then (s1, RPreview (getChanges tree1))
      else
        match commit denied s1 tree1 with
        | (s2, Ok _) => (s2, RApplied g)
        | (s2, Throw e) => (s2, RRejected e)
        end
  end.

End Run.

(** The "Changes made" summary of ADR-003 [runGenerator]:
    [created = changes.filter(c => c.type === 'create')] and
    [modified = changes.filter(c => c.type === 'modify')], as paths, over the
    records of the run. *)
Definition is_type (k : ChangeType) (c : Change) : bool :=
  match k, type c with
  | create, create | modify_, modify_ | delete_, delete_ => true
  | _, _ => false
  end.

Definition summary (cs : list Change) : list string * list string :=
  (map path (List.filter (is_type create) cs), map path (List.filter (is_type modify_) cs)).

(** The shape every tree built through the API has: one record per key,
    stored under its own path. *)
Definition wf (t : T) : Prop :=
  List.NoDup (map fst (changes t)) /\ Forall (fun kv => path (snd kv) = fst kv) (changes t).

(** The keys of a JavaScript [Map] after [set(k, _)]. *)
Definition add_key (keys : list string) (k : string) : list string :=
  if existsb (String.eqb k) keys then keys else keys ++ [k].

(** The distinct elements of a list, in order of first occurrence. *)
Definition first_occ (l : list string) : list string := fold_left add_key l [].

(** The paths a call stages a record for. *)
Definition staged_paths (ops : list Op) : list string :=
  flat_map (fun o => match o with
                     | OWrite p _ | OModify p _ | ODelete p => [p]
                     | _ => []
                     end) ops.

(** Calls that only stage (no [commit], no [rollback]). *)
Definition only_staging (o : Op) : bool :=
  match o with OCommit | ORollback => false | _ => true end.

End Pipeline.

(* ------------------------------------------------------------------ *)
(** ** More of the [Tree] API and the ADR-003 [runGenerator] *)

Module Extra.
Import Tree Pipeline.


(** What one record of [commit] does to the file contents when the
    storage refuses nothing. *)
Definition file_effect (base : string) (f : gmap string string) (ch : Change)
  : gmap string string :=
  let fullPath := Path.join base (path ch) in
  match type ch with
  | create | modify_ =>
      match content ch with Some data => <[fullPath := data]> f | None => f end
  | delete_ => base.delete fullPath f
  end.




(** A record that [commit] can write: a delete, or one with content. *)
Definition has_content (ch : Change) : Prop := type ch = delete_ \/ content ch <> None.

Definition is_create_with_content (ch : Change) : Prop :=
  type ch = create /\ content ch <> None.

(** A generator body that writes the given files. *)
Definition write_ops (body : list (string * string)) : list Op :=
  map (fun pc => OWrite (fst pc) (snd pc)) body.

End Extra.

(* ------------------------------------------------------------------ *)
(** ** Properties *)

Import Tree Pipeline Extra.

Example join_escape : Path.join "/proj" "../evil" = "/evil".
Proof. reflexivity. Qed.
Example join_plain : Path.join "/proj" "a/b/file.txt" = "/proj/a/b/file.txt".
Proof. reflexivity. Qed.
Example dirname_plain : Path.dirname "/proj/a/b/file.txt" = "/proj/a/b".
Proof. reflexivity. Qed.

(** *** The insertion-ordered map *)

Lemma map_get_set_eq (m : JsMap) k v : map_get (map_set m k v) k = Some v.
Proof.
  induction m as [|[k' v'] m IH]; simpl.
  - rewrite String.eqb_refl. reflexivity.
  - destruct (String.eqb k k') eqn:E; simpl.
    + rewrite E. reflexivity.
    + rewrite E. exact IH.
Qed.

Lemma map_get_set_ne (m : JsMap) k k' v :
  k' <> k -> map_get (map_set m k v) k' = map_get m k'.
Proof.
  intros Hne. induction m as [|[k0 v0] m IH]; simpl.
  - apply String.eqb_neq in Hne. rewrite Hne. reflexivity.
  - destruct (String.eqb k k0) eqn:E; simpl.
    + apply String.eqb_eq in E. subst k0.
      apply String.eqb_neq in Hne. rewrite Hne. reflexivity.
    + destruct (String.eqb k' k0); [reflexivity | exact IH].
Qed.

Lemma map_set_keys (m : JsMap) k v :
  map fst (map_set m k v) =
  if existsb (String.eqb k) (map fst m) then map fst m else map fst m ++ [k].
Proof.
  induction m as [|[k0 v0] m IH]; simpl; [reflexivity|].
  destruct (String.eqb k k0) eqn:E; simpl; [reflexivity|].
  rewrite IH. destruct (existsb (String.eqb k) (map fst m)); reflexivity.
Qed.

(** *** Staging never touches the storage *)

Lemma step_keeps_storage denied s t o :
  is_commit o = false -> fst (step denied s t o) = s.
Proof. destruct o; simpl; try discriminate; reflexivity. Qed.

Lemma exec_keeps_storage denied ops :
  forallb (fun o => negb (is_commit o)) ops = true ->
  forall s t, fst (exec denied s t ops) = s.
Proof.
  induction ops as [|o ops IH]; intros Hno s t; simpl; [reflexivity|].
  simpl in Hno. apply andb_prop in Hno as [Ho Hno].
  apply negb_true_iff in Ho.
  pose proof (step_keeps_storage denied s t o Ho) as Hs.
  destruct (step denied s t o) as [s1 [t1|e]] eqn:E; simpl in Hs; subst s1.
  - apply IH; exact Hno.
  - reflexivity.
Qed.

(** C1: a sequence of tree calls that contains no [commit] leaves the real
    storage as it was; in particular a dry run of such a generator returns
    the storage unchanged (so every [existsSync] check answers as before)
    and ends as a preview, or as a rejection when a [modify] threw. *)
Theorem staging_isolation denied (ops : list Op) (s : Storage) (t : T)
  (base : string) (o : Options)
  (Hno : forallb (fun o => negb (is_commit o)) ops = true)
  (Hdry : dryRun o = true) :
  fst (exec denied s t ops) = s /\
  (let r := runGenerator denied (ops_generator denied ops) base o s in
   fst r = s /\
   (forall full, existsSync (fst r) full = existsSync s full) /\
   ((exists cs, snd r = RPreview cs) \/ (exists e, snd r = RRejected e))).
Proof.
  split; [apply exec_keeps_storage; exact Hno|].
  unfold runGenerator, ops_generator.
  pose proof (exec_keeps_storage denied ops Hno s (new_Tree base)) as Hs.
  destruct (exec denied s (new_Tree base) ops) as [s1 [t1|e]]; simpl in Hs; subst s1.
  - rewrite Hdry. simpl. split; [reflexivity|]. split; [reflexivity|].
    left. eexists. reflexivity.
  - simpl. split; [reflexivity|]. split; [reflexivity|].
    right. eexists. reflexivity.
Qed.

(** C7: read after write returns the written content, whatever the storage
    holds and whatever was staged for the path before. *)
Theorem read_after_write (s : Storage) (t : T) (p c : string) :
  read s (write t p c) p = Some c.
Proof.
  unfold read, write, set_changes. simpl.
  rewrite map_get_set_eq. reflexivity.
Qed.

(** *** Well-formed trees *)

Lemma filter_path_absent (m : JsMap) k :
  ~ In k (map fst m) -> Forall (fun kv => path (snd kv) = fst kv) m ->
  List.filter (fun ch => String.eqb (path ch) k) (map snd m) = [].
Proof.
  induction m as [|[k0 v0] m IH]; intros Hnin Hf; simpl; [reflexivity|].
  apply Forall_cons_iff in Hf as [Hv Hf']. simpl in Hv, Hnin.
  rewrite Hv. destruct (String.eqb k0 k) eqn:E.
  - apply String.eqb_eq in E. subst. exfalso. apply Hnin. left. reflexivity.
  - apply IH; [intros H; apply Hnin; right; exact H | exact Hf'].
Qed.

Lemma filter_path_set (m : JsMap) k v :
  List.NoDup (map fst m) -> Forall (fun kv => path (snd kv) = fst kv) m -> path v = k ->
  List.filter (fun ch => String.eqb (path ch) k) (map snd (map_set m k v)) = [v].
Proof.
  induction m as [|[k0 v0] m IH]; intros Hnd Hf Hv; simpl.
  - rewrite Hv, String.eqb_refl. reflexivity.
  - apply Forall_cons_iff in Hf as [Hv0 Hf']. simpl in Hv0.
    apply List.NoDup_cons_iff in Hnd as [Hnin Hnd']. simpl in Hnin.
    subst k. destruct (String.eqb (path v) k0) eqn:E; simpl.
    + rewrite String.eqb_refl. apply String.eqb_eq in E. f_equal.
      apply filter_path_absent; [rewrite E; exact Hnin | exact Hf'].
    + rewrite Hv0, String.eqb_sym, E. apply IH; auto.
Qed.

Lemma wf_set (t : T) k v :
  wf t -> path v = k -> wf (set_changes t (map_set (changes t) k v)).
Proof.
  intros [Hnd Hf] Hv. unfold wf, set_changes; simpl. split.
  - rewrite map_set_keys.
    destruct (existsb (String.eqb k) (map fst (changes t))) eqn:E; [exact Hnd|].
    apply List.NoDup_app; [exact Hnd | repeat constructor; intros [] |].
    intros x Hx Hy. destruct Hy as [Hy|[]]. subst x.
    assert (existsb (String.eqb k) (map fst (changes t)) = true) as Hc.
    { apply existsb_exists. exists k. split; [exact Hx | apply String.eqb_refl]. }
    congruence.
  - clear Hnd. induction (changes t) as [|[k0 v0] m IH]; simpl.
    + constructor; [exact Hv | constructor].
    + apply Forall_cons_iff in Hf as [Hv0 Hf']. simpl in Hv0.
      destruct (String.eqb k k0) eqn:E.
      * apply String.eqb_eq in E. constructor; [simpl; congruence | exact Hf'].
      * constructor; [exact Hv0 | apply IH; exact Hf'].
Qed.

Lemma wf_new_Tree base : wf (new_Tree base).
Proof. split; simpl; constructor. Qed.

Lemma wf_write t p c : wf t -> wf (write t p c).
Proof. intros H. apply wf_set; [exact H | reflexivity]. Qed.

Lemma wf_delete t p : wf t -> wf (delete t p).
Proof. intros H. apply wf_set; [exact H | reflexivity]. Qed.

Lemma wf_modify s t p f t' : wf t -> modify s t p f = Ok t' -> wf t'.
Proof.
  intros H. unfold modify.
  destruct (read s t p) as [cur|]; [|discriminate].
  destruct (falsy (Some cur)); [discriminate|].
  intros E. injection E as <-. apply wf_set; [exact H | reflexivity].
Qed.

Lemma getChanges_paths (t : T) :
  wf t -> map path (getChanges t) = map fst (changes t).
Proof.
  intros [_ Hf]. unfold getChanges, map_values.
  induction (changes t) as [|[k v] m IH]; simpl; [reflexivity|].
  apply Forall_cons_iff in Hf as [Hv Hf']. simpl in Hv.
  rewrite Hv, IH by exact Hf'. reflexivity.
Qed.

Lemma modify_ok_shape s t p f t' :
  modify s t p f = Ok t' ->
  exists v, t' = set_changes t (map_set (changes t) p v) /\ path v = p.
Proof.
  unfold modify. destruct (read s t p) as [cur|]; [|discriminate].
  destruct (falsy (Some cur)); [discriminate|].
  intros E. injection E as <-. eexists. split; reflexivity.
Qed.

(** Each staging call adds its path to the keys as [Map.prototype.set]
    does, and keeps the tree well formed. *)
Lemma exec_staging_keys denied ops :
  forallb only_staging ops = true ->
  forall s t s' t', wf t -> exec denied s t ops = (s', Ok t') ->
  wf t' /\ map fst (changes t') = fold_left add_key (staged_paths ops) (map fst (changes t)).
Proof.
  induction ops as [|o ops IH]; intros Hops s t s' t' Hwf Hex; simpl in *.
  - injection Hex as <- <-. split; [exact Hwf | reflexivity].
  - apply andb_prop in Hops as [Ho Hops].
    destruct o as [p c|p f|p|p|p| |]; simpl in *; try discriminate.
    + edestruct (IH Hops _ _ _ _ (wf_write t p c Hwf) Hex) as [Hw Hk].
      split; [exact Hw|]. rewrite Hk. unfold write, set_changes; simpl.
      rewrite map_set_keys. reflexivity.
    + destruct (modify s t p f) as [t1|e] eqn:Em; [|discriminate].
      pose proof (wf_modify s t p f t1 Hwf Em) as Hw1.
      destruct (modify_ok_shape s t p f t1 Em) as [v [-> _]].
      edestruct (IH Hops _ _ _ _ Hw1 Hex) as [Hw Hk].
      split; [exact Hw|]. rewrite Hk. unfold set_changes; simpl.
      rewrite map_set_keys. reflexivity.
    + edestruct (IH Hops _ _ _ _ (wf_delete t p Hwf) Hex) as [Hw Hk].
      split; [exact Hw|]. rewrite Hk. unfold delete, set_changes; simpl.
      rewrite map_set_keys. reflexivity.
    + exact (IH Hops _ _ _ _ Hwf Hex).
    + exact (IH Hops _ _ _ _ Hwf Hex).
Qed.

(** C5 (as the code does it): [write(p, c)] then [delete(p)] leaves exactly
    one record for [p] in [getChanges()], a Delete record that replaced the
    Create. *)
Theorem write_then_delete_keeps_delete (t : T) (p c : string) (Hwf : wf t) :
  List.filter (fun ch => String.eqb (path ch) p) (getChanges (delete (write t p c) p))
  = [mkChange delete_ p None].
Proof.
  pose proof (wf_write t p c Hwf) as [Hnd Hf].
  unfold delete at 1, getChanges, map_values, set_changes; simpl.
  apply filter_path_set; [exact Hnd | exact Hf | reflexivity].
Qed.

(** C6 (as the code does it): [getChanges()] lists one record per staged
    path, in the order in which each path was first staged. *)
Theorem getChanges_insertion_order denied (ops : list Op) (s s' : Storage)
  (base : string) (t' : T)
  (Hops : forallb only_staging ops = true)
  (Hex : exec denied s (new_Tree base) ops = (s', Ok t')) :
  map path (getChanges t') = first_occ (staged_paths ops).
Proof.
  destruct (exec_staging_keys denied ops Hops s (new_Tree base) s' t'
              (wf_new_Tree base) Hex) as [Hw Hk].
  rewrite getChanges_paths by exact Hw. rewrite Hk. reflexivity.
Qed.

(** C10: [write(p, c)] stages a Create record for [p] whatever the storage
    holds and whatever was staged for [p] before, so the run's summary lists
    [p] under Created and not under Modified. *)
Theorem write_stages_create (t : T) (p c : string) (Hwf : wf t) :
  let cs := getChanges (write t p c) in
  List.filter (fun ch => String.eqb (path ch) p) cs = [mkChange create p (Some c)] /\
  In p (fst (summary cs)) /\ ~ In p (snd (summary cs)).
Proof.
  intros cs.
  assert (Hp : List.filter (fun ch => String.eqb (path ch) p) cs = [mkChange create p (Some c)]).
  { destruct Hwf as [Hnd Hf]. unfold cs, getChanges, map_values, write, set_changes; simpl.
    apply filter_path_set; [exact Hnd | exact Hf | reflexivity]. }
  assert (Hin : In (mkChange create p (Some c)) cs).
  { assert (In (mkChange create p (Some c))
              (List.filter (fun ch => String.eqb (path ch) p) cs)) as H
      by (rewrite Hp; left; reflexivity).
    apply filter_In in H as [H _]. exact H. }
  split; [exact Hp|]. split.
  - unfold summary; simpl. apply in_map_iff.
    exists (mkChange create p (Some c)). split; [reflexivity|].
    apply filter_In. split; [exact Hin | reflexivity].
  - unfold summary; simpl. intros H. apply in_map_iff in H as [ch [Hpath Hch]].
    apply filter_In in Hch as [Hch Hmod].
    assert (In ch (List.filter (fun ch => String.eqb (path ch) p) cs)) as H2.
    { apply filter_In. split; [exact Hch|]. rewrite Hpath. apply String.eqb_refl. }
    rewrite Hp in H2. destruct H2 as [<-|[]]. discriminate.
Qed.

Lemma staging_isolation_witness :
  forallb (fun o => negb (is_commit o)) [OWrite "src/x.ts" "A"; ODelete "b"] = true /\
  dryRun (mkOptions true false) = true /\
  (fst (exec (fun _ => false) (mkStorage ∅ []) (new_Tree "/proj")
          [OWrite "src/x.ts" "A"; ODelete "b"]) = mkStorage ∅ [] /\
   (let r := runGenerator (fun _ => false)
               (ops_generator (fun _ => false) [OWrite "src/x.ts" "A"; ODelete "b"])
               "/proj" (mkOptions true false) (mkStorage ∅ []) in
    fst r = mkStorage ∅ [] /\
    (forall full, existsSync (fst r) full = existsSync (mkStorage ∅ []) full) /\
    ((exists cs, snd r = RPreview cs) \/ (exists e, snd r = RRejected e)))).
Proof.
  split; [reflexivity|]. split; [reflexivity|].
  apply (staging_isolation (fun _ => false) [OWrite "src/x.ts" "A"; ODelete "b"]
           (mkStorage ∅ []) (new_Tree "/proj") "/proj" (mkOptions true false));
    reflexivity.
Defined.

Lemma write_then_delete_keeps_delete_witness :
  wf (new_Tree "/proj") /\
  List.filter (fun ch => String.eqb (path ch) "p")
    (getChanges (delete (write (new_Tree "/proj") "p" "c") "p"))
  = [mkChange delete_ "p" None].
Proof.
  split; [apply wf_new_Tree|].
  apply (write_then_delete_keeps_delete (new_Tree "/proj") "p" "c"). apply wf_new_Tree.
Defined.

(** C5 is false as stated: after [write("p", "c")] and [delete("p")] the
    change list still holds a record for ["p"]. *)
Lemma write_then_delete_leaves_record :
  getChanges (delete (write (new_Tree "/proj") "p" "c") "p") = [mkChange delete_ "p" None] /\
  existsb (fun ch => String.eqb (path ch) "p")
    (getChanges (delete (write (new_Tree "/proj") "p" "c") "p")) = true.
Proof. split; reflexivity. Qed.

Lemma getChanges_insertion_order_witness :
  forallb only_staging [OWrite "b" "1"; OWrite "a" "2"; OWrite "b" "3"] = true /\
  exec (fun _ => false) (mkStorage ∅ []) (new_Tree "/proj")
    [OWrite "b" "1"; OWrite "a" "2"; OWrite "b" "3"]
  = (mkStorage ∅ [],
     Ok (write (write (write (new_Tree "/proj") "b" "1") "a" "2") "b" "3")) /\
  map path (getChanges (write (write (write (new_Tree "/proj") "b" "1") "a" "2") "b" "3"))
  = first_occ (staged_paths [OWrite "b" "1"; OWrite "a" "2"; OWrite "b" "3"]).
Proof.
  split; [reflexivity|]. split; [reflexivity|].
  apply (getChanges_insertion_order (fun _ => false)
           [OWrite "b" "1"; OWrite "a" "2"; OWrite "b" "3"]
           (mkStorage ∅ []) (mkStorage ∅ []) "/proj"); reflexivity.
Defined.

(** C6 is false as stated: staging ["b"] then ["a"] lists ["b"] first,
    although ["a"] sorts before ["b"], and staging the same two records in
    the other order gives a different snapshot. *)
Lemma getChanges_not_sorted :
  map path (getChanges (write (write (new_Tree "/proj") "b" "1") "a" "2")) = ["b"; "a"] /\
  map path (getChanges (write (write (new_Tree "/proj") "a" "2") "b" "1")) = ["a"; "b"] /\
  String.compare "a" "b" = Lt.
Proof. split; [reflexivity|]. split; reflexivity. Qed.

Lemma write_stages_create_witness :
  wf (delete (new_Tree "/proj") "p") /\
  (let cs := getChanges (write (delete (new_Tree "/proj") "p") "p" "c") in
   List.filter (fun ch => String.eqb (path ch) "p") cs = [mkChange create "p" (Some "c")] /\
   In "p" (fst (summary cs)) /\ ~ In "p" (snd (summary cs))).
Proof.
  assert (H : wf (delete (new_Tree "/proj") "p")) by (apply wf_delete, wf_new_Tree).
  split; [exact H|].
  apply (write_stages_create (delete (new_Tree "/proj") "p") "p" "c"). exact H.
Defined.

(** *** Commit *)

(** The loop over [changes.values()] runs the records one after the other:
    a prefix first, then the rest from where the prefix left the storage. *)
Lemma apply_all_app denied base (l1 l2 : list Change) (s : Storage) :
  apply_all denied base (l1 ++ l2) s =
  match apply_all denied base l1 s with
  | (s1, None) => apply_all denied base l2 s1
  | (s1, Some e) => (s1, Some e)
  end.
Proof.
  revert s. induction l1 as [|ch l1 IH]; intros s; simpl; [reflexivity|].
  destruct (apply_change denied base s ch) as [s1 [e|]]; [reflexivity|].
  apply IH.
Qed.

Lemma apply_all_error denied base (cs : list Change) (s s' : Storage) (e : Err) :
  apply_all denied base cs s = (s', Some e) ->
  (exists full, e = EAccess full /\ denied full = true) \/ (exists full, e = ETypeError full).
Proof.
  revert s. induction cs as [|ch cs IH]; intros s; simpl; [discriminate|].
  destruct (apply_change denied base s ch) as [s1 [e1|]] eqn:E; [|apply IH].
  intros H. injection H as _ <-. revert E.
  unfold apply_change, writeFileSync, unlinkSync.
  destruct (type ch);
    [ destruct (content ch) | destruct (content ch) | destruct (existsSync s _) ];
    try (destruct (denied _) eqn:D);
    intros E; injection E as _ E; subst; eauto; discriminate.
Qed.

(** C2 (as the code does it): [commit] has no validation phase.  A staged
    write lands at [join(baseDir, path)] wherever that is, inside the base
    directory or not, and the only errors [commit] raises are those of the
    storage calls. *)
Theorem commit_no_validation :
  (forall (base p c : string) (s : Storage),
     commit (fun _ => false) s (write (new_Tree base) p c) =
     (mkStorage (<[Path.join base p := c]> (files s))
                ((trace s ++ [EMkdir (Path.dirname (Path.join base p))])
                   ++ [EWrite (Path.join base p) c]),
      Ok (new_Tree base))) /\
  (forall denied (s s' : Storage) (t : T) (e : Err),
     commit denied s t = (s', Throw e) ->
     (exists full, e = EAccess full /\ denied full = true) \/ (exists full, e = ETypeError full)).
Proof.
  split.
  - intros base p c s. reflexivity.
  - intros denied s s' t e. unfold commit.
    destruct (apply_all denied (baseDir t) (getChanges t) s) as [s1 [e1|]] eqn:E;
      [|discriminate].
    intros H. injection H as _ <-. eapply apply_all_error. exact E.
Qed.

(** C2 is false as stated: a staged write at ["../evil"] under ["/proj"]
    is committed without error, to ["/evil"], outside the base directory. *)
Lemma commit_writes_outside_base :
  fst (commit (fun _ => false) (mkStorage ∅ []) (write (new_Tree "/proj") "../evil" "x"))
    = mkStorage (<["/evil" := "x"]> ∅) [EMkdir "/"; EWrite "/evil" "x"] /\
  snd (commit (fun _ => false) (mkStorage ∅ []) (write (new_Tree "/proj") "../evil" "x"))
    = Ok (new_Tree "/proj") /\
  Path.under "/proj" "/evil" = false.
Proof. split; [reflexivity|]. split; reflexivity. Qed.

(** C3 (as the code does it): [commit] applies the records of
    [getChanges()] (insertion order, see C6) one after the other in that
    order, with no sorting and no grouping of creates before deletes: a
    split of the list at any point is a prefix applied first, then the rest
    from the storage the prefix left, and the first error ends the commit. *)
Theorem commit_in_map_order denied (s : Storage) (t : T) (l1 l2 : list Change)
  (Hsplit : getChanges t = l1 ++ l2) :
  commit denied s t =
  match apply_all denied (baseDir t) l1 s with
  | (s1, None) =>
      match apply_all denied (baseDir t) l2 s1 with
      | (s2, None) => (s2, Ok (set_changes t []))
      | (s2, Some e) => (s2, Throw e)
      end
  | (s1, Some e) => (s1, Throw e)
  end.
Proof.
  unfold commit. rewrite Hsplit, apply_all_app.
  destruct (apply_all denied (baseDir t) l1 s) as [s1 [e|]]; reflexivity.
Qed.

Lemma commit_in_map_order_witness :
  getChanges (write (delete (new_Tree "/proj") "a/old.txt") "a/b/file.txt" "X")
    = [mkChange delete_ "a/old.txt" None] ++ [mkChange create "a/b/file.txt" (Some "X")] /\
  commit (fun _ => false) (mkStorage ∅ [])
    (write (delete (new_Tree "/proj") "a/old.txt") "a/b/file.txt" "X") =
  match apply_all (fun _ => false) "/proj" [mkChange delete_ "a/old.txt" None] (mkStorage ∅ []) with
  | (s1, None) =>
      match apply_all (fun _ => false) "/proj" [mkChange create "a/b/file.txt" (Some "X")] s1 with
      | (s2, None) =>
          (s2, Ok (set_changes (write (delete (new_Tree "/proj") "a/old.txt") "a/b/file.txt" "X") []))
      | (s2, Some e) => (s2, Throw e)
      end
  | (s1, Some e) => (s1, Throw e)
  end.
Proof.
  split; [reflexivity|].
  apply (commit_in_map_order (fun _ => false) (mkStorage ∅ [])
           (write (delete (new_Tree "/proj") "a/old.txt") "a/b/file.txt" "X")).
  reflexivity.
Defined.

(** C3 is false as stated: with the delete of ["a/old.txt"] staged before
    the create of ["a/b/file.txt"], the unlink is issued before the mkdir
    and the write. *)
Lemma commit_deletes_before_create :
  trace (fst (commit (fun _ => false) (mkStorage (<["/proj/a/old.txt" := "old"]> ∅) [])
                (write (delete (new_Tree "/proj") "a/old.txt") "a/b/file.txt" "X")))
  = [EUnlink "/proj/a/old.txt"; EMkdir "/proj/a/b"; EWrite "/proj/a/b/file.txt" "X"].
Proof. reflexivity. Qed.

(** C4 (as the code does it): when the storage call of one record raises,
    [commit] stops there.  The records before it stay applied, the records
    after it are never attempted, and [commit] rejects with the raw error of
    that storage call and nothing else. *)
Theorem commit_stops_at_failure denied (s s1 s2 : Storage) (t : T)
  (pre post : list Change) (bad : Change) (e : Err)
  (Hsplit : getChanges t = pre ++ bad :: post)
  (Hpre : apply_all denied (baseDir t) pre s = (s1, None))
  (Hbad : apply_change denied (baseDir t) s1 bad = (s2, Some e)) :
  commit denied s t = (s2, Throw e).
Proof.
  unfold commit. rewrite Hsplit, apply_all_app, Hpre. simpl. rewrite Hbad. reflexivity.
Qed.

Lemma commit_stops_at_failure_witness :
  let deny := fun full => String.eqb full "/proj/b" in
  let t := write (write (write (new_Tree "/proj") "a" "1") "b" "2") "c" "3" in
  getChanges t = [mkChange create "a" (Some "1")] ++
                 mkChange create "b" (Some "2") :: [mkChange create "c" (Some "3")] /\
  apply_all deny "/proj" [mkChange create "a" (Some "1")] (mkStorage ∅ [])
    = (mkStorage (<["/proj/a" := "1"]> ∅) [EMkdir "/proj"; EWrite "/proj/a" "1"], None) /\
  apply_change deny "/proj" (mkStorage (<["/proj/a" := "1"]> ∅) [EMkdir "/proj"; EWrite "/proj/a" "1"])
    (mkChange create "b" (Some "2"))
    = (mkStorage (<["/proj/a" := "1"]> ∅) [EMkdir "/proj"; EWrite "/proj/a" "1"; EMkdir "/proj"],
       Some (EAccess "/proj/b")) /\
  commit deny (mkStorage ∅ []) t
    = (mkStorage (<["/proj/a" := "1"]> ∅) [EMkdir "/proj"; EWrite "/proj/a" "1"; EMkdir "/proj"],
       Throw (EAccess "/proj/b")).
Proof.
  intros deny t.
  split; [reflexivity|]. split; [reflexivity|]. split; [reflexivity|].
  apply (commit_stops_at_failure deny (mkStorage ∅ [])
           (mkStorage (<["/proj/a" := "1"]> ∅) [EMkdir "/proj"; EWrite "/proj/a" "1"])
           (mkStorage (<["/proj/a" := "1"]> ∅) [EMkdir "/proj"; EWrite "/proj/a" "1"; EMkdir "/proj"])
           t [mkChange create "a" (Some "1")] [mkChange create "c" (Some "3")]
           (mkChange create "b" (Some "2")) (EAccess "/proj/b"));
    reflexivity.
Defined.

(** C4 is false as stated: the result of a failed commit does not tell
    which records succeeded.  Two commits failing on ["b"], one after
    writing ["a"] and one that wrote nothing, return the same rejection. *)
Lemma commit_failure_result_has_no_progress :
  let deny := fun full => String.eqb full "/proj/b" in
  let r1 := commit deny (mkStorage ∅ []) (write (write (new_Tree "/proj") "a" "1") "b" "2") in
  let r2 := commit deny (mkStorage ∅ []) (write (new_Tree "/proj") "b" "2") in
  snd r1 = Throw (EAccess "/proj/b") /\ snd r2 = Throw (EAccess "/proj/b") /\
  files (fst r1) !! "/proj/a" = Some "1" /\ files (fst r2) !! "/proj/a" = None.
Proof. split; [reflexivity|]. split; [reflexivity|]. split; reflexivity. Qed.

(** *** Modify *)

(** C8: [modify] of a path whose effective content is the empty string
    throws "File ... does not exist" although [read] returns that content:
    the guard [if (!current)] also rejects [""]. *)
Theorem modify_rejects_empty_file :
  let s := mkStorage (<["/proj/p" := ""]> ∅) [] in
  read s (new_Tree "/proj") "p" = Some "" /\
  exists_ s (new_Tree "/proj") "p" = true /\
  modify s (new_Tree "/proj") "p" (fun src => String.append src "B") = Throw (ENotExist "p").
Proof. split; [reflexivity|]. split; reflexivity. Qed.

(** *** Installation detection *)

Lemma checkInstalled_every (markerFiles : list string) (s : Storage) (t : T) :
  checkInstalled markerFiles s t = true <->
  Forall (fun file => exists_ s t file = true) markerFiles.
Proof.
  unfold checkInstalled. rewrite forallb_forall, List.Forall_forall. reflexivity.
Qed.

(** C9: [checkInstalled] is true exactly when every marker exists in the
    tree's effective state; when it holds on the fresh tree and [force] is
    off, [generate] takes the "Skipping" return with nothing staged, and the
    run leaves the storage as it was. *)
Theorem installed_skips denied (markerFiles : list string) (body : list Op)
  (base : string) (o : Options) (s : Storage)
  (Hinst : checkInstalled markerFiles s (new_Tree base) = true)
  (Hforce : force o = false) :
  (forall t, checkInstalled markerFiles s t = true <->
             Forall (fun file => exists_ s t file = true) markerFiles) /\
  idem_generator denied markerFiles body s o (new_Tree base)
    = (s, Ok (GenSkipped, new_Tree base)) /\
  getChanges (new_Tree base) = [] /\
  runGenerator denied (idem_generator denied markerFiles body) base o s
    = (s, if dryRun o then RPreview [] else RApplied GenSkipped).
Proof.
  assert (Hgen : idem_generator denied markerFiles body s o (new_Tree base)
                 = (s, Ok (GenSkipped, new_Tree base))).
  { unfold idem_generator. rewrite Hinst, Hforce. reflexivity. }
  split; [intros t; apply checkInstalled_every|].
  split; [exact Hgen|]. split; [reflexivity|].
  unfold runGenerator. rewrite Hgen. destruct (dryRun o); reflexivity.
Qed.

Lemma installed_skips_witness :
  let s := mkStorage (<["/proj/src/auth/auth.module.ts" := "m"]>
                      (<["/proj/src/auth/auth.controller.ts" := "c"]> ∅)) [] in
  let markers := ["src/auth/auth.module.ts"; "src/auth/auth.controller.ts"] in
  let o := mkOptions false false in
  let body := [OWrite "src/auth/auth.module.ts" "new"] in
  checkInstalled markers s (new_Tree "/proj") = true /\ force o = false /\
  ((forall t, checkInstalled markers s t = true <->
              Forall (fun file => exists_ s t file = true) markers) /\
   idem_generator (fun _ => false) markers body s o (new_Tree "/proj")
     = (s, Ok (GenSkipped, new_Tree "/proj")) /\
   getChanges (new_Tree "/proj") = [] /\
   runGenerator (fun _ => false) (idem_generator (fun _ => false) markers body) "/proj" o s
     = (s, if dryRun o then RPreview [] else RApplied GenSkipped)).
Proof.
  intros s markers o body.
  split; [reflexivity|]. split; [reflexivity|].
  apply (installed_skips (fun _ => false) markers body "/proj" o s); reflexivity.
Defined.

(* ------------------------------------------------------------------ *)
(** ** Further properties of the [Tree] API *)

Lemma map_set_set (m : JsMap) k v1 v2 :
  map_set (map_set m k v1) k v2 = map_set m k v2.
Proof.
  induction m as [|[k0 v0] m IH]; simpl.
  - rewrite String.eqb_refl. reflexivity.
  - destruct (String.eqb k k0) eqn:E; simpl; rewrite E; [reflexivity|].
    rewrite IH. reflexivity.
Qed.

(** After [delete(p)], [read(p)] is [null] and [exists(p)] is false,
    whatever the storage holds. *)
Theorem read_exists_after_delete (s : Storage) (t : T) (p : string) :
  read s (delete t p) p = None /\ exists_ s (delete t p) p = false.
Proof.
  unfold read, exists_, delete, set_changes; simpl.
  rewrite map_get_set_eq. split; reflexivity.
Qed.

(** Staging at one path does not change what [read] and [exists] answer
    at another path. *)
Theorem staging_frame (s : Storage) (t : T) (p q c : string) (Hne : q <> p) :
  read s (write t q c) p = read s t p /\ exists_ s (write t q c) p = exists_ s t p /\
  read s (delete t q) p = read s t p /\ exists_ s (delete t q) p = exists_ s t p.
Proof.
  unfold read, exists_, write, delete, set_changes; simpl.
  rewrite !map_get_set_ne by (intros H; apply Hne; symmetry; exact H).
  repeat split; reflexivity.
Qed.

Lemma staging_frame_witness :
  "b"%string <> "a"%string /\
  (read (mkStorage ∅ []) (write (new_Tree "/proj") "b" "1") "a" = read (mkStorage ∅ []) (new_Tree "/proj") "a" /\
   exists_ (mkStorage ∅ []) (write (new_Tree "/proj") "b" "1") "a" = exists_ (mkStorage ∅ []) (new_Tree "/proj") "a" /\
   read (mkStorage ∅ []) (delete (new_Tree "/proj") "b") "a" = read (mkStorage ∅ []) (new_Tree "/proj") "a" /\
   exists_ (mkStorage ∅ []) (delete (new_Tree "/proj") "b") "a" = exists_ (mkStorage ∅ []) (new_Tree "/proj") "a").
Proof.
  split; [discriminate|].
  apply (staging_frame (mkStorage ∅ []) (new_Tree "/proj") "a" "b" "1"). discriminate.
Defined.

(** Last write wins: writing a path twice is the same tree as writing it
    once with the second content (the record keeps its first position). *)
Theorem write_write (t : T) (p c1 c2 : string) :
  write (write t p c1) p c2 = write t p c2.
Proof.
  unfold write, set_changes; simpl. rewrite map_set_set. reflexivity.
Qed.

(** [modify] throws exactly when the effective content is [null] or the
    empty string, always with ["File p does not exist"]; otherwise it
    stages a Modify record holding the modifier's result on that content,
    which [read] then returns. *)
Theorem modify_spec (s : Storage) (t : T) (p : string) (f : string -> string) :
  (forall e, modify s t p f = Throw e <-> falsy (read s t p) = true /\ e = ENotExist p) /\
  (forall cur, read s t p = Some cur -> cur <> EmptyString ->
     exists t', modify s t p f = Ok t' /\ read s t' p = Some (f cur) /\
                map_get (changes t') p = Some (mkChange modify_ p (Some (f cur)))).
Proof.
  split.
  - intros e. unfold modify. destruct (read s t p) as [cur|]; simpl.
    + destruct (String.eqb cur EmptyString); simpl.
      * split; [intros H; injection H as <-; split; reflexivity|].
        intros [_ ->]. reflexivity.
      * split; [discriminate|]. intros [H _]. discriminate.
    + split; [intros H; injection H as <-; split; reflexivity|].
      intros [_ ->]. reflexivity.
  - intros cur Hr Hne. unfold modify. rewrite Hr. simpl.
    apply String.eqb_neq in Hne. rewrite Hne.
    eexists. split; [reflexivity|].
    unfold read, set_changes; simpl. rewrite map_get_set_eq. split; reflexivity.
Qed.

(** A write followed by a modify of the same path composes: committing
    writes the modifier's result on the written content, once. *)
Theorem write_modify_commit (base p c : string) (f : string -> string) (s : Storage)
  (Hc : c <> EmptyString) :
  exec (fun _ => false) s (new_Tree base) [OWrite p c; OModify p f; OCommit] =
  (mkStorage (<[Path.join base p := f c]> (files s))
             ((trace s ++ [EMkdir (Path.dirname (Path.join base p))])
                ++ [EWrite (Path.join base p) (f c)]),
   Ok (new_Tree base)).
Proof.
  simpl. unfold modify. rewrite read_after_write. simpl.
  apply String.eqb_neq in Hc. rewrite Hc.
  unfold write, set_changes; simpl. rewrite String.eqb_refl. reflexivity.
Qed.

Lemma write_modify_commit_witness :
  "A"%string <> EmptyString /\
  exec (fun _ => false) (mkStorage ∅ []) (new_Tree "/proj")
    [OWrite "src/x.ts" "A"; OModify "src/x.ts" (fun src => String.append src "B"); OCommit] =
  (mkStorage (<[Path.join "/proj" "src/x.ts" := String.append "A" "B"]> (files (mkStorage ∅ [])))
             ((trace (mkStorage ∅ []) ++ [EMkdir (Path.dirname (Path.join "/proj" "src/x.ts"))])
                ++ [EWrite (Path.join "/proj" "src/x.ts") (String.append "A" "B")]),
   Ok (new_Tree "/proj")).
Proof.
  split; [discriminate|].
  apply (write_modify_commit "/proj" "src/x.ts" "A" (fun src => String.append src "B")).
  discriminate.
Defined.

(** A successful [commit] empties the tree, keeps its base directory, and
    committing the emptied tree again touches no storage. *)
Theorem commit_then_commit_noop denied (s s' : Storage) (t t' : T)
  (Hc : commit denied s t = (s', Ok t')) :
  getChanges t' = [] /\ baseDir t' = baseDir t /\
  (forall s'', commit denied s'' t' = (s'', Ok t')).
Proof.
  unfold commit in Hc.
  destruct (apply_all denied (baseDir t) (getChanges t) s) as [s1 [e|]];
    [discriminate|].
  injection Hc as _ <-. split; [reflexivity|]. split; [reflexivity|].
  intros s''. reflexivity.
Qed.

Lemma commit_then_commit_noop_witness :
  commit (fun _ => false) (mkStorage ∅ []) (write (new_Tree "/proj") "a" "1")
    = (mkStorage (<["/proj/a" := "1"]> ∅) [EMkdir "/proj"; EWrite "/proj/a" "1"],
       Ok (new_Tree "/proj")) /\
  (getChanges (new_Tree "/proj") = [] /\ baseDir (new_Tree "/proj") = baseDir (write (new_Tree "/proj") "a" "1") /\
   (forall s'', commit (fun _ => false) s'' (new_Tree "/proj") = (s'', Ok (new_Tree "/proj")))).
Proof.
  split; [reflexivity|].
  apply (commit_then_commit_noop (fun _ => false) (mkStorage ∅ [])
           (mkStorage (<["/proj/a" := "1"]> ∅) [EMkdir "/proj"; EWrite "/proj/a" "1"])
           (write (new_Tree "/proj") "a" "1")).
  reflexivity.
Defined.

(** *** The git gate and [--force] *)




(** *** [exists] agrees with [read] *)





(** *** A commit makes the storage read as the tree did *)


Lemma apply_all_nodeny base (cs : list Change) (s : Storage) :
  Forall has_content cs ->
  exists s', apply_all (fun _ => false) base cs s = (s', None) /\
             files s' = fold_left (file_effect base) cs (files s).
Proof.
  revert s. induction cs as [|ch cs IH]; intros s Hcs; simpl.
  - exists s. split; reflexivity.
  - apply Forall_cons_iff in Hcs as [Hch Hcs].
    unfold apply_change, writeFileSync, unlinkSync, mkdirSync.
    destruct (type ch) eqn:Ety.
    1,2: destruct (content ch) as [data|] eqn:Ec;
         [| destruct Hch as [Hd|Hd]; congruence].
    3: destruct (existsSync s (Path.join base (path ch))) eqn:Ex.
    all: lazymatch goal with
         | |- exists s', apply_all _ _ _ ?s1 = _ /\ _ =>
             destruct (IH s1 Hcs) as [s' [Ha Hf]]
         end.
    all: exists s'; split; [exact Ha|]; rewrite Hf; simpl; f_equal;
         unfold file_effect; rewrite ?Ety, ?Ec; try reflexivity.
    symmetry. apply delete_id.
    unfold existsSync in Ex. destruct (files s !! _); [discriminate | reflexivity].
Qed.







(** *** Running an idempotent generator twice *)

Lemma exec_write_ops denied (body : list (string * string)) (s : Storage) (t : T) :
  exec denied s t (write_ops body) =
  (s, Ok (fold_left (fun t pc => write t (fst pc) (snd pc)) body t)).
Proof.
  revert t. induction body as [|[p c] body IH]; intros t; simpl; [reflexivity|].
  apply IH.
Qed.

Lemma write_ops_staging body : forallb only_staging (write_ops body) = true.
Proof. induction body as [|[p c] body IH]; [reflexivity | exact IH]. Qed.

Lemma write_ops_paths body : staged_paths (write_ops body) = map fst body.
Proof. induction body as [|[p c] body IH]; simpl; [reflexivity | f_equal; exact IH]. Qed.

Lemma fold_writes_creates (body : list (string * string)) (t : T) :
  Forall (fun kv => is_create_with_content (snd kv)) (changes t) ->
  Forall (fun kv => is_create_with_content (snd kv))
         (changes (fold_left (fun t pc => write t (fst pc) (snd pc)) body t)).
Proof.
  revert t. induction body as [|[p c] body IH]; intros t Ht; simpl; [exact Ht|].
  apply IH. unfold write, set_changes; simpl. clear IH.
  induction (changes t) as [|[k0 v0] m IHm]; simpl.
  - constructor; [split; [reflexivity | discriminate] | constructor].
  - apply Forall_cons_iff in Ht as [H0 Hm].
    destruct (String.eqb p k0).
    + constructor; [split; [reflexivity | discriminate] | exact Hm].
    + constructor; [exact H0 | apply IHm; exact Hm].
Qed.

Lemma add_key_keeps (keys : list string) k x : In x keys -> In x (add_key keys k).
Proof.
  unfold add_key. destruct (existsb _ _); [auto|]. intros H. apply in_or_app. left. exact H.
Qed.

Lemma fold_add_key_in (l keys : list string) x :
  In x l \/ In x keys -> In x (fold_left add_key l keys).
Proof.
  revert keys. induction l as [|y l IH]; intros keys H; simpl.
  - destruct H as [[]|H]; exact H.
  - apply IH. destruct H as [[->|H]|H].
    + right. unfold add_key. destruct (existsb (String.eqb x) keys) eqn:E.
      * apply existsb_exists in E as [z [Hz Ez]]. apply String.eqb_eq in Ez. subst. exact Hz.
      * apply in_or_app. right. left. reflexivity.
    + left. exact H.
    + right. apply add_key_keeps. exact H.
Qed.

Lemma fold_effect_creates base (cs : list Change) (f : gmap string string) x :
  Forall is_create_with_content cs ->
  (exists ch, In ch cs /\ Path.join base (path ch) = x) \/ is_Some (f !! x) ->
  is_Some (fold_left (file_effect base) cs f !! x).
Proof.
  revert f. induction cs as [|ch cs IH]; intros f Hcs H; simpl.
  - destruct H as [[ch [[] _]]|H]; exact H.
  - apply Forall_cons_iff in Hcs as [[Hty Hc] Hcs]. apply IH; [exact Hcs|].
    unfold file_effect at 1. rewrite Hty.
    destruct (content ch) as [data|] eqn:Ec; [|congruence].
    destruct H as [[ch' [[<-|Hin] Hx]]|H].
    + right. rewrite Hx. rewrite lookup_insert_eq. eexists. reflexivity.
    + left. exists ch'. split; assumption.
    + right. destruct (decide (Path.join base (path ch) = x)) as [<-|Hne].
      * rewrite lookup_insert_eq. eexists. reflexivity.
      * rewrite lookup_insert_ne by exact Hne. exact H.
Qed.

(** ADR-004 idempotency: when every marker file is among the files the
    generator writes, a second non-forced run after a first run that no
    storage call refused is skipped and leaves the storage as the first run
    left it, whether the first run generated the files or was skipped
    itself. *)
Theorem second_run_skips (markerFiles : list string) (body : list (string * string))
  (base : string) (o : Options) (s s1 : Storage) (r1 : RunResult)
  (Hforce : force o = false) (Hdry : dryRun o = false)
  (Hcover : forall m, In m markerFiles -> In m (map fst body))
  (Hrun : runGenerator (fun _ => false)
            (idem_generator (fun _ => false) markerFiles (write_ops body)) base o s = (s1, r1)) :
  runGenerator (fun _ => false)
    (idem_generator (fun _ => false) markerFiles (write_ops body)) base o s1
  = (s1, RApplied GenSkipped).
Proof.
  assert (Hinst : checkInstalled markerFiles s1 (new_Tree base) = true).
  { unfold runGenerator, idem_generator in Hrun. rewrite Hforce, andb_true_r in Hrun.
    destruct (checkInstalled markerFiles s (new_Tree base)) eqn:Ei.
    - simpl in Hrun. rewrite Hdry in Hrun. injection Hrun as <- _. exact Ei.
    - simpl in Hrun. unfold ops_generator in Hrun. rewrite exec_write_ops, Hdry in Hrun.
      set (t1 := fold_left (fun t pc => write t (fst pc) (snd pc)) body (new_Tree base)) in Hrun.
      assert (Hcr : Forall (fun kv => is_create_with_content (snd kv)) (changes t1))
        by (apply fold_writes_creates; constructor).
      assert (Hcs : Forall is_create_with_content (getChanges t1)).
      { unfold getChanges, map_values. apply Forall_map. exact Hcr. }
      destruct (apply_all_nodeny (baseDir t1) (getChanges t1) s) as [s' [Ha Hf]].
      { eapply Forall_impl; [exact Hcs|]. intros ch [_ Hc]. right. exact Hc. }
      unfold commit in Hrun. rewrite Ha in Hrun. injection Hrun as <- _.
      destruct (exec_staging_keys (fun _ => false) (write_ops body))
        with (s := s) (t := new_Tree base) (s' := s) (t' := t1) as [[_ Hpk] Hk].
      { apply write_ops_staging. }
      { apply wf_new_Tree. }
      { apply exec_write_ops. }
      assert (Hbase : baseDir t1 = base).
      { unfold t1. change base with (baseDir (new_Tree base)) at 2.
        generalize (new_Tree base). clear.
        induction body as [|[p c] body IH]; intros t; simpl; [reflexivity|].
        rewrite IH. reflexivity. }
      unfold checkInstalled. apply forallb_forall. intros m Hm.
      unfold exists_, new_Tree; simpl. unfold existsSync. rewrite Hf.
      destruct (fold_left (file_effect (baseDir t1)) (getChanges t1) (files s)
                  !! Path.join base m) eqn:El; [reflexivity|].
      exfalso.
      assert (Hkey : In m (map fst (changes t1))).
      { rewrite Hk. apply fold_add_key_in. left.
        rewrite write_ops_paths.
        apply Hcover. exact Hm. }
      apply in_map_iff in Hkey as [[k ch] [Hkm Hin]]. simpl in Hkm. subst k.
      destruct (fold_effect_creates (baseDir t1) (getChanges t1) (files s)
                  (Path.join base m) Hcs) as [v Hv].
      { left. exists ch. split.
        - unfold getChanges, map_values. apply in_map_iff. exists (m, ch). split; [reflexivity | exact Hin].
        - rewrite List.Forall_forall in Hpk. pose proof (Hpk _ Hin) as Hp. simpl in Hp.
          rewrite Hp, Hbase. reflexivity. }
      congruence. }
  unfold runGenerator, idem_generator. rewrite Hinst, Hforce. simpl. rewrite Hdry. reflexivity.
Qed.

Lemma second_run_skips_witness :
  let body := [("src/auth/auth.module.ts", "m"); ("src/auth/auth.controller.ts", "c")] in
  let markers := ["src/auth/auth.module.ts"; "src/auth/auth.controller.ts"] in
  let o := mkOptions false false in
  let s1 := fst (runGenerator (fun _ => false)
                   (idem_generator (fun _ => false) markers (write_ops body)) "/proj" o (mkStorage ∅ [])) in
  force o = false /\ dryRun o = false /\
  (forall m, In m markers -> In m (map fst body)) /\
  runGenerator (fun _ => false) (idem_generator (fun _ => false) markers (write_ops body))
    "/proj" o (mkStorage ∅ []) = (s1, RApplied GenDone) /\
  runGenerator (fun _ => false) (idem_generator (fun _ => false) markers (write_ops body))
    "/proj" o s1 = (s1, RApplied GenSkipped).
Proof.
  intros body markers o s1.
  assert (Hcov : forall m, In m markers -> In m (map fst body)) by (intros m Hm; exact Hm).
  split; [reflexivity|]. split; [reflexivity|]. split; [exact Hcov|]. split; [reflexivity|].
  apply (second_run_skips markers body "/proj" o (mkStorage ∅ []) s1 (RApplied GenDone));
    [reflexivity | reflexivity | exact Hcov | reflexivity].
Defined.
